(** * ServiceBusClient: a shallow embedding of
      azure/servicebus/_servicebus_client.py

    The client is a facade: it keeps a namespace, a credential and a
    configuration, and builds senders and receivers from them.  Python
    values are embedded as an inductive type, keyword dictionaries
    ([**kwargs]) as [gmap string value], the mutable client together with
    the objects it allocates as an explicit state, and exceptions as an
    outcome type threaded through a small state-and-error monad. *)

From Stdlib Require Import Ascii String.
From stdpp Require Import base option list strings pretty gmap.

Open Scope string_scope.
Open Scope list_scope.

(** ** Python values *)

Inductive TransportType := Amqp | AmqpOverWebsocket.

(** The values that travel through keyword dictionaries.  [VObj] stands for
    any other Python object (a proxy dictionary, for instance), abstracted
    to the two things this module can observe of it: its truth value and
    its [str()] rendering. *)
Inductive value :=
  | VNone
  | VBool (b : bool)
  | VInt (n : Z)
  | VStr (s : string)
  | VTransport (t : TransportType)
  | VObj (truth : bool) (rendering : string).

#[global] Instance TransportType_eq_dec : EqDecision TransportType.
Proof. solve_decision. Defined.

#[global] Instance value_eq_dec : EqDecision value.
Proof. solve_decision. Defined.

(** [bool(v)]: what [if v:] and the left operand of [or] are tested for. *)
Definition truthy (v : value) : bool :=
  match v with
  | VNone => false
  | VBool b => b
  | VInt n => negb (n =? 0)%Z
  | VStr s => negb (String.eqb s "")
  | VTransport _ => true
  | VObj t _ => t
  end.

(** [str(v)]: what ["{}".format(v)] prints. *)
Definition py_str (v : value) : string :=
  match v with
  | VNone => "None"
  | VBool true => "True"
  | VBool false => "False"
  | VInt n => pretty n
  | VStr s => s
  | VTransport Amqp => "TransportType.Amqp"
  | VTransport AmqpOverWebsocket => "TransportType.AmqpOverWebsocket"
  | VObj _ r => r
  end.

(** [d.get(k)] and [d.get(k, default)] *)
Definition dict_get (d : gmap string value) (k : string) (dflt : value) : value :=
  default dflt (d !! k).

(** [d.pop(k, default)]: the value and the dictionary without the key. *)
Definition dict_pop (d : gmap string value) (k : string) (dflt : value)
  : value * gmap string value :=
  (default dflt (d !! k), delete k d).

(** ** Exceptions and outcomes *)

Inductive exn :=
  | TypeError            (* "got multiple values for keyword argument" *)
  | AttributeError
  | ParseError
  | ServiceBusConnectionError
  | ServiceBusAuthorizationError
  | UserError (name : string).   (* raised by a caller's own code *)

#[global] Instance exn_eq_dec : EqDecision exn.
Proof. solve_decision. Defined.

(** A call [f(k1=v1, ..., kn=vn, **kwargs)] raises [TypeError] when
    [kwargs] repeats one of the keywords written out at the call site. *)
Definition repeats_keyword (explicit : list string) (kwargs : gmap string value) : bool :=
  existsb (fun k => bool_decide (is_Some (kwargs !! k))) explicit.

(** ** Credentials *)

Inductive credential :=
  | ServiceBusSharedKeyCredential (policy key : string)
  | TokenCredential (name : string).

#[global] Instance credential_eq_dec : EqDecision credential.
Proof. solve_decision. Defined.

(** ** Connection strings *)

(** [s.split(sep)] for a one-character separator. *)
Fixpoint split (sep : ascii) (s : string) : list string :=
  match s with
  | EmptyString => [EmptyString]
  | String c s' =>
      if Ascii.eqb c sep then EmptyString :: split sep s'
      else match split sep s' with
           | x :: xs => String c x :: xs
           | [] => [String c EmptyString]
           end
  end.

(** [s.partition(sep)] without the separator: the text before the first
    [sep] and the text after it. *)
Fixpoint partition (sep : ascii) (s : string) : string * string :=
  match s with
  | EmptyString => (EmptyString, EmptyString)
  | String c s' =>
      if Ascii.eqb c sep then (EmptyString, s')
      else let '(k, v) := partition sep s' in (String c k, v)
  end.

(** [s[len(p):]] when [s] starts with [p]. *)
Fixpoint strip_prefix (p s : string) : option string :=
  match p, s with
  | EmptyString, _ => Some s
  | String a p', String b s' => if Ascii.eqb a b then strip_prefix p' s' else None
  | String _ _, EmptyString => None
  end.

Definition fields (conn_str : string) : list (string * string) :=
  partition "=" <$> split ";" conn_str.

(** The value of the first [name=value] element of the string. *)
Definition field (name conn_str : string) : option string :=
  snd <$> List.find (fun kv => String.eqb (fst kv) name) (fields conn_str).

Definition nonempty (o : option string) : option string :=
  match o with
  | Some EmptyString | None => None
  | Some s => Some s
  end.

(** Modelled from the spec: [_parse_conn_str] of [_base_handler], which is
    imported by the client but is not part of the source at hand.  The
    literal format is
    [Endpoint=sb://<namespace>;SharedAccessKeyName=<policy>;SharedAccessKeyValue=<key>[;EntityPath=<name>]];
    the parser fails with [ParseError] on a missing Endpoint, key name or
    key, [EntityPath] is optional, and the host is the part of the
    Endpoint after [sb://]. *)
Definition _parse_conn_str (conn_str : string)
  : exn + (string * string * string * option string) :=
  match nonempty (field "Endpoint" conn_str) ≫= strip_prefix "sb://",
        nonempty (field "SharedAccessKeyName" conn_str),
        nonempty (field "SharedAccessKeyValue" conn_str) with
  | Some host, Some policy, Some key =>
      inr (host, policy, key, field "EntityPath" conn_str)
  | _, _, _ => inl ParseError
  end.

(** ** Configuration *)

(** Modelled from the spec: [Configuration] of [_common._configuration],
    not part of the source at hand.  Its constructor keywords are
    [logging_enable] (default false), [transport_type] (default AMQP),
    [http_proxy] and [retry_total] (default 3); unknown keywords are
    ignored. *)
Record Configuration := {
  logging_enable : value;
  transport_type : value;
  http_proxy : value;
  retry_total : value
}.

Definition Configuration_init (kwargs : gmap string value) : Configuration := {|
  logging_enable := dict_get kwargs "logging_enable" (VBool false);
  transport_type := dict_get kwargs "transport_type" (VTransport Amqp);
  http_proxy := dict_get kwargs "http_proxy" VNone;
  retry_total := dict_get kwargs "retry_total" (VInt 3)
|}.

(** ** The client and the objects it allocates *)

(** References to allocated objects are indices into the heap. *)
Definition ref := nat.

Record ServiceBusClient := {
  fully_qualified_namespace : string;
  _credential : credential;
  _config : Configuration;
  _connection : option ref;
  _entity_name : value;
  _auth_uri : string;
  _connection_sharing : bool
}.

(** What a connection authenticates with. *)
Record Auth := {
  auth_credential : credential;
  auth_scope : string
}.

(** Modelled from the spec: [create_authentication] of [_common.utils],
    not part of the source at hand.  The authentication URI is the
    resource scope presented to the credential for token acquisition. *)
Definition create_authentication (c : ServiceBusClient) : Auth :=
  {| auth_credential := _credential c; auth_scope := _auth_uri c |}.

(** [uamqp.Connection]: the arguments it was built with and the number of
    [destroy()] calls it has received. *)
Record Connection := {
  hostname : string;
  sasl : Auth;
  debug : value;
  destroy_calls : nat
}.

(** The keyword arguments a [ServiceBusSender] or [ServiceBusReceiver] is
    constructed with; [arg_kwargs] holds the caller's [**kwargs]. *)
Record HandlerArgs := {
  arg_fully_qualified_namespace : string;
  arg_queue_name : string;
  arg_credential : credential;
  arg_logging_enable : value;
  arg_transport_type : value;
  arg_http_proxy : value;
  arg_connection : option ref;
  arg_kwargs : gmap string value
}.

Inductive obj :=
  | ServiceBusSender (a : HandlerArgs)
  | ServiceBusReceiver (a : HandlerArgs)
  | UamqpConnection (c : Connection).

(** The constructors of [ServiceBusSender] and [ServiceBusReceiver] are
    imported by the client and are not part of the source at hand; the
    docstrings of [get_queue_sender] and [get_queue_receiver] say that
    they may raise ([ServiceBusConnectionError],
    [ServiceBusAuthorizationError]).  They are taken as parameters: for
    the arguments of a call, the exception the constructor raises, or
    [None] when it builds the object. *)
Record Constructors := {
  ServiceBusSender_init : HandlerArgs → option exn;
  ServiceBusReceiver_init : HandlerArgs → option exn
}.

(** Constructors that build whatever they are asked for. *)
Definition always_constructs : Constructors :=
  {| ServiceBusSender_init := λ _, None;
     ServiceBusReceiver_init := λ _, None |}.

(** The client, the objects allocated so far, and the constructors the
    client calls. *)
Record state := {
  self : ServiceBusClient;
  heap : list obj;
  constructors : Constructors
}.

(** ** A state-and-exception monad for the methods *)

Inductive outcome (A : Type) :=
  | Return (a : A)
  | Raise (e : exn).
Arguments Return {A} a.
Arguments Raise {A} e.

Definition M (A : Type) : Type := state → outcome A * state.

#[global] Instance M_ret : MRet M := λ A a st, (Return a, st).

#[global] Instance M_bind : MBind M := λ A B f m st,
  match m st with
  | (Return a, st') => f a st'
  | (Raise e, st') => (Raise e, st')
  end.

Definition raise {A} (e : exn) : M A := λ st, (Raise e, st).

Definition get_self : M ServiceBusClient := λ st, (Return (self st), st).

(** [self._connection = r] *)
Definition set_connection (r : option ref) : M unit := λ st,
  let c := self st in
  (Return tt,
   {| self := {| fully_qualified_namespace := fully_qualified_namespace c;
                 _credential := _credential c;
                 _config := _config c;
                 _connection := r;
                 _entity_name := _entity_name c;
                 _auth_uri := _auth_uri c;
                 _connection_sharing := _connection_sharing c |};
      heap := heap st;
      constructors := constructors st |}).

(** Constructing an object: it is placed at the next free index. *)
Definition alloc (o : obj) : M ref := λ st,
  (Return (length (heap st)),
   {| self := self st; heap := heap st ++ [o]; constructors := constructors st |}).

(** Calling a constructor of a sender or receiver: it raises, or the
    object is built. *)
Definition construct (init : Constructors → HandlerArgs → option exn)
    (kind : HandlerArgs → obj) (a : HandlerArgs) : M ref := λ st,
  match init (constructors st) a with
  | Some e => (Raise e, st)
  | None => alloc (kind a) st
  end.

(** [conn.destroy()] *)
Definition destroy (r : ref) : M unit := λ st,
  match heap st !! r with
  | Some (UamqpConnection c) =>
      (Return tt,
       {| self := self st;
          heap := <[r := UamqpConnection
                           {| hostname := hostname c; sasl := sasl c;
                              debug := debug c;
                              destroy_calls := S (destroy_calls c) |}]> (heap st);
          constructors := constructors st |})
  | _ => (Raise AttributeError, st)
  end.

(** ** ServiceBusClient *)

Definition __init__ (fully_qualified_namespace : string) (credential : credential)
    (kwargs : gmap string value) : ServiceBusClient :=
  let entity_name := dict_get kwargs "entity_name" VNone in
  let auth_uri := "sb://" +:+ fully_qualified_namespace in
  let auth_uri :=
    if truthy entity_name then auth_uri +:+ "/" +:+ py_str entity_name
    else auth_uri in
  {| fully_qualified_namespace := fully_qualified_namespace;
     _credential := credential;
     _config := Configuration_init kwargs;
     _connection := None;
     _entity_name := entity_name;
     _auth_uri := auth_uri;
     _connection_sharing := false |}.

Definition _create_uamqp_connection : M unit :=
  c ← get_self;
  let auth := create_authentication c in
  r ← alloc (UamqpConnection
               {| hostname := fully_qualified_namespace c;
                  sasl := auth;
                  debug := logging_enable (_config c);
                  destroy_calls := 0 |});
  set_connection (Some r).

(** [__enter__] returns [self]; the model returns nothing. *)
Definition __enter__ : M unit :=
  c ← get_self;
  if _connection_sharing c then _create_uamqp_connection else mret tt.

Definition close : M value :=
  c ← get_self;
  if _connection_sharing c then
    match _connection c with
    | Some r => _ ← destroy r; mret VNone
    | None => mret VNone
    end
  else mret VNone.

(** [__exit__] with its star-arguments: [exc] is the exception the block
    ended with, if any.  The method has no [return], so it yields [None]. *)
Definition __exit__ (exc : option exn) : M value :=
  _ ← close; mret VNone.

(** The [with client: body] statement: [__enter__], the body, then
    [__exit__] with the body's exception if it raised one; that exception
    is re-raised unless [__exit__] returned a true value.  The result is
    [None] when an exception was suppressed. *)
Definition with_client {A} (body : M A) : M (option A) := λ st,
  match __enter__ st with
  | (Raise e, st1) => (Raise e, st1)
  | (Return _, st1) =>
      match body st1 with
      | (Return a, st2) =>
          match __exit__ None st2 with
          | (Return _, st3) => (Return (Some a), st3)
          | (Raise e', st3) => (Raise e', st3)
          end
      | (Raise e, st2) =>
          match __exit__ (Some e) st2 with
          | (Return r, st3) => if truthy r then (Return None, st3) else (Raise e, st3)
          | (Raise e', st3) => (Raise e', st3)
          end
      end
  end.

(** The class method is called as [cls.from_connection_string(conn_str,
    **kwargs)]: a keyword named like one of its own parameters, [cls] or
    [conn_str], is a second value for that parameter and raises
    [TypeError] before the body runs.  In the call [cls(...)] at the end,
    a keyword left in [kwargs] that is written out at the call site is
    repeated, and a keyword [self] is a second value for the first
    parameter of [__init__]; both raise [TypeError]. *)
Definition from_connection_string (conn_str : string) (kwargs : gmap string value)
  : exn + ServiceBusClient :=
  if repeats_keyword ["cls"; "conn_str"] kwargs then inl TypeError
  else
    match _parse_conn_str conn_str with
    | inl e => inl e
    | inr (host, policy, key, entity_in_conn_str) =>
        let entity := from_option VStr VNone entity_in_conn_str in
        (* entity_in_conn_str or kwargs.pop("entity_name", None): the pop
           runs only when the left operand is false *)
        let '(entity_name, kwargs) :=
          if truthy entity then (entity, kwargs)
          else dict_pop kwargs "entity_name" VNone in
        let credential := ServiceBusSharedKeyCredential policy key in
        if repeats_keyword ["fully_qualified_namespace"; "entity_name"; "credential"] kwargs
        then inl TypeError
        else if repeats_keyword ["self"] kwargs then inl TypeError
        else inr (__init__ host credential (<["entity_name" := entity_name]> kwargs))
    end.

(** The keywords a call of [from_connection_string] cannot carry: those
    named like a parameter of the method or of [__init__], and those the
    method passes itself.  [entity_name] joins them when the string has
    an entity path. *)
Definition reserved_keywords : list string :=
  ["cls"; "conn_str"; "self"; "fully_qualified_namespace"; "credential"].

(** The parameters of [get_queue_sender] and [get_queue_receiver] that
    are bound by the call itself: a keyword of that name is a second
    value for the parameter and raises [TypeError]. *)
Definition bound_parameters : list string := ["self"; "queue_name"].

(** The keywords written out in the two constructor calls below. *)
Definition handler_keywords : list string :=
  ["fully_qualified_namespace"; "queue_name"; "credential"; "logging_enable";
   "transport_type"; "http_proxy"; "connection"].

Definition handler_args (c : ServiceBusClient) (queue_name : string)
    (kwargs : gmap string value) : HandlerArgs :=
  {| arg_fully_qualified_namespace := fully_qualified_namespace c;
     arg_queue_name := queue_name;
     arg_credential := _credential c;
     arg_logging_enable := logging_enable (_config c);
     arg_transport_type := transport_type (_config c);
     arg_http_proxy := http_proxy (_config c);
     arg_connection := _connection c;
     arg_kwargs := kwargs |}.

Definition get_queue_sender (queue_name : string) (kwargs : gmap string value) : M ref :=
  if repeats_keyword bound_parameters kwargs then raise TypeError
  else
    c ← get_self;
    if repeats_keyword handler_keywords kwargs then raise TypeError
    else
      sender ← construct ServiceBusSender_init ServiceBusSender
                 (handler_args c queue_name kwargs);
      mret sender.

Definition get_queue_receiver (queue_name : string) (kwargs : gmap string value) : M ref :=
  if repeats_keyword bound_parameters kwargs then raise TypeError
  else
    c ← get_self;
    if repeats_keyword handler_keywords kwargs then raise TypeError
    else
      receiver ← construct ServiceBusReceiver_init ServiceBusReceiver
                   (handler_args c queue_name kwargs);
      mret receiver.

(** [close()] called [n] times in a row. *)
Fixpoint close_times (n : nat) : M value :=
  match n with
  | 0 => mret VNone
  | S k => _ ← close; close_times k
  end.

(** ** The public operations as a transition system *)

Inductive call :=
  | Call_enter
  | Call_exit (exc : option exn)
  | Call_close
  | Call_get_queue_sender (queue_name : string) (kwargs : gmap string value)
  | Call_get_queue_receiver (queue_name : string) (kwargs : gmap string value).

(** The state a call leaves behind, whether it returned or raised. *)
Definition perform (c : call) (st : state) : state :=
  match c with
  | Call_enter => snd (__enter__ st)
  | Call_exit exc => snd (__exit__ exc st)
  | Call_close => snd (close st)
  | Call_get_queue_sender q kw => snd (get_queue_sender q kw st)
  | Call_get_queue_receiver q kw => snd (get_queue_receiver q kw st)
  end.

(** The states of a client from its construction on, under any sequence
    of public calls; [h] holds whatever was allocated before and [ctors]
    are the constructors it will call. *)
Inductive reachable : state → Prop :=
  | reachable_init ns cred kw h ctors :
      reachable {| self := __init__ ns cred kw; heap := h; constructors := ctors |}
  | reachable_call st c :
      reachable st → reachable (perform c st).

(** A sequence of public calls, one after the other. *)
Definition perform_all (cs : list call) (st : state) : state :=
  foldl (λ s c, perform c s) st cs.

(** The client with the internal sharing flag switched on, as the
    assignment [client._connection_sharing = True] leaves it. *)
Definition enable_sharing (c : ServiceBusClient) : ServiceBusClient :=
  {| fully_qualified_namespace := fully_qualified_namespace c;
     _credential := _credential c;
     _config := _config c;
     _connection := _connection c;
     _entity_name := _entity_name c;
     _auth_uri := _auth_uri c;
     _connection_sharing := true |}.

(** A connection after [n] more [destroy()] calls. *)
Definition destroyed (n : nat) (c : Connection) : Connection :=
  {| hostname := hostname c; sasl := sasl c; debug := debug c;
     destroy_calls := n + destroy_calls c |}.

(** The connection [_create_uamqp_connection] builds for a client. *)
Definition connection_of (c : ServiceBusClient) : Connection :=
  {| hostname := fully_qualified_namespace c;
     sasl := create_authentication c;
     debug := logging_enable (_config c);
     destroy_calls := 0 |}.

(** A caller's session: enter the client, then get a sender and a
    receiver from it. *)
Definition open_links (q q' : string) (kw kw' : gmap string value) : M (ref * ref) :=
  _ ← __enter__;
  sender ← get_queue_sender q kw;
  receiver ← get_queue_receiver q' kw';
  mret (sender, receiver).

(** ** Retry executor *)

Module Retry.

Inductive error_class := Transient | Authorization | Validation.

Record failure := {
  class : error_class;
  name : string
}.

Definition is_transient (e : failure) : bool :=
  match class e with
  | Transient => true
  | Authorization | Validation => false
  end.

(** How a wrapped operation ends: with its result, with an error that
    is not retried, or with [ServiceBusError] carrying the last
    underlying error and the number of attempts. *)
Inductive result (A : Type) :=
  | Done (a : A)
  | Propagated (e : failure)
  | ServiceBusError (last : option failure) (attempts : nat).
Arguments Done {A} a.
Arguments Propagated {A} e.
Arguments ServiceBusError {A} last attempts.

Section Executor.
Context {W A : Type}.
(** One attempt of the operation on the outside world [W]. *)
Variable operation : W → (failure + A) * W.

(** Modelled from the spec: the retry loop of the retry policy
    executor, which is not part of the source at hand.  It makes at
    most [remaining] further attempts, retries only on transient
    errors, lets authorization and validation errors through at
    once, and on exhaustion raises [ServiceBusError] around the last
    underlying error with the attempt count.  Besides the result it
    yields the number of attempts made.  Backoff delays are not
    modelled. *)
Fixpoint retry_loop (remaining made : nat) (last : option failure) (w : W)
  : result A * nat * W :=
  match remaining with
  | 0 => (ServiceBusError last made, made, w)
  | S k =>
      match operation w with
      | (inr a, w') => (Done a, S made, w')
      | (inl e, w') =>
          if is_transient e then retry_loop k (S made) (Some e) w'
          else (Propagated e, S made, w')
      end
  end.

(** Modelled from the spec: the retry policy executor wrapping an
    operation with [retry_total] attempts. *)
Definition do_retryable_operation (retry_total : nat) (w : W)
  : result A * nat * W :=
  retry_loop retry_total 0 None w.
End Executor.

(** An operation that times out on every call, and one whose credential
    is rejected; the world counts the calls made. *)
Definition always_times_out (w : nat) : (failure + unit) * nat :=
  (inl {| class := Transient; name := "timeout" |}, S w).

Definition always_unauthorized (w : nat) : (failure + unit) * nat :=
  (inl {| class := Authorization; name := "unauthorized" |}, S w).

End Retry.

(** * Properties *)

(** ** Keyword dictionaries and truth values *)

Lemma repeats_keyword_false (explicit : list string) (kwargs : gmap string value) :
  Forall (λ k, kwargs !! k = None) explicit →
  repeats_keyword explicit kwargs = false.
Proof.
  unfold repeats_keyword.
  induction 1 as [|k ks Hk _ IH]; simpl; [done|].
  rewrite Hk, IH. by rewrite bool_decide_eq_false_2 by (intros [? ?]; done).
Qed.

Lemma repeats_keyword_true (explicit : list string) (kwargs : gmap string value) k :
  k ∈ explicit → is_Some (kwargs !! k) →
  repeats_keyword explicit kwargs = true.
Proof.
  intros Hin Hk. unfold repeats_keyword.
  apply existsb_exists. exists k. split.
  - by apply list_elem_of_In.
  - by apply bool_decide_eq_true_2.
Qed.

Lemma repeats_keyword_false_inv (explicit : list string) (kwargs : gmap string value) k :
  repeats_keyword explicit kwargs = false → k ∈ explicit → kwargs !! k = None.
Proof.
  intros Hrep Hin. destruct (kwargs !! k) as [v|] eqn:Hk; [|done].
  rewrite (repeats_keyword_true explicit kwargs k) in Hrep; [done|done|].
  rewrite Hk. by eexists.
Qed.

Lemma truthy_VStr (s : string) : truthy (VStr s) = true ↔ s ≠ "".
Proof.
  simpl. rewrite negb_true_iff. apply String.eqb_neq.
Qed.

Lemma truthy_nonempty (o : option string) :
  truthy (from_option VStr VNone o) = false ↔ nonempty o = None.
Proof.
  destruct o as [[|a s]|]; simpl; split; congruence.
Qed.

(** ** Construction from a connection string *)

Lemma repeats_keyword_app (l1 l2 : list string) (kwargs : gmap string value) :
  repeats_keyword (l1 ++ l2) kwargs
    = repeats_keyword l1 kwargs || repeats_keyword l2 kwargs.
Proof. unfold repeats_keyword. apply existsb_app. Qed.

(** What the class method does once the string has been parsed, when the
    string carries an entity path. *)
Lemma from_connection_string_entity_path cs kw host policy key e :
  _parse_conn_str cs = inr (host, policy, key, Some e) → e ≠ "" →
  from_connection_string cs kw =
    if repeats_keyword ("entity_name" :: reserved_keywords) kw
    then inl TypeError
    else inr (__init__ host (ServiceBusSharedKeyCredential policy key)
                (<["entity_name" := VStr e]> kw)).
Proof.
  intros Hparse He. unfold from_connection_string. rewrite Hparse.
  cbn [from_option]. apply truthy_VStr in He. rewrite He.
  unfold repeats_keyword, reserved_keywords. simpl.
  repeat (destruct (bool_decide _)); done.
Qed.

(** The same when the string carries no entity path: the keyword is
    popped and used. *)
Lemma from_connection_string_no_entity_path cs kw host policy key o :
  _parse_conn_str cs = inr (host, policy, key, o) → nonempty o = None →
  from_connection_string cs kw =
    if repeats_keyword reserved_keywords kw
    then inl TypeError
    else inr (__init__ host (ServiceBusSharedKeyCredential policy key)
                (<["entity_name" := dict_get kw "entity_name" VNone]>
                   (delete "entity_name" kw))).
Proof.
  intros Hparse Ho. unfold from_connection_string. rewrite Hparse.
  apply truthy_nonempty in Ho. rewrite Ho.
  unfold repeats_keyword, reserved_keywords, dict_pop. simpl.
  rewrite lookup_delete_eq, !lookup_delete_ne by done.
  repeat (destruct (bool_decide (is_Some (kw !! _)))); done.
Qed.

(** C1.  A connection string with a non-empty EntityPath together with an
    [entity_name] keyword does not produce a client whose entity is the
    EntityPath: the keyword is left in [kwargs] (the [or] skips the
    [pop]), so the constructor call repeats [entity_name] and raises
    [TypeError]. *)
Theorem from_connection_string_entity_name_clash cs kw host policy key e v :
  _parse_conn_str cs = inr (host, policy, key, Some e) → e ≠ "" →
  kw !! "entity_name" = Some v →
  from_connection_string cs kw = inl TypeError.
Proof.
  intros Hparse He Hkw.
  rewrite (from_connection_string_entity_path cs kw host policy key e) by done.
  rewrite (repeats_keyword_true _ kw "entity_name"); [done|set_solver|].
  rewrite Hkw. by eexists.
Qed.

Lemma from_connection_string_entity_name_clash_witness :
  from_connection_string
    "Endpoint=sb://ns.servicebus.windows.net;SharedAccessKeyName=p;SharedAccessKeyValue=k;EntityPath=q1"
    {[ "entity_name" := VStr "q2" ]} = inl TypeError.
Proof.
  apply (from_connection_string_entity_name_clash _ _
           "ns.servicebus.windows.net" "p" "k" "q1" (VStr "q2")).
  - reflexivity.
  - discriminate.
  - reflexivity.
Defined.

(** Without the keyword the entity path of the string is the entity. *)
Lemma from_connection_string_entity_path_alone cs kw host policy key e :
  _parse_conn_str cs = inr (host, policy, key, Some e) → e ≠ "" →
  Forall (λ k, kw !! k = None) ("entity_name" :: reserved_keywords) →
  ∃ c, from_connection_string cs kw = inr c ∧ _entity_name c = VStr e.
Proof.
  intros Hparse He Hkw.
  rewrite (from_connection_string_entity_path cs kw host policy key e) by done.
  rewrite repeats_keyword_false by done.
  eexists; split; [done|]. simpl. unfold dict_get. by rewrite lookup_insert_eq.
Qed.

Lemma parse_valid cs host policy key :
  field "Endpoint" cs = Some ("sb://" +:+ host) →
  field "SharedAccessKeyName" cs = Some policy → policy ≠ "" →
  field "SharedAccessKeyValue" cs = Some key → key ≠ "" →
  _parse_conn_str cs = inr (host, policy, key, field "EntityPath" cs).
Proof.
  intros HE HP HPne HK HKne. unfold _parse_conn_str.
  rewrite HE, HP, HK. simpl.
  destruct policy; [done|]. destruct key; [done|]. reflexivity.
Qed.

Lemma parse_missing cs :
  nonempty (field "Endpoint" cs) = None
  ∨ nonempty (field "SharedAccessKeyName" cs) = None
  ∨ nonempty (field "SharedAccessKeyValue" cs) = None →
  _parse_conn_str cs = inl ParseError.
Proof.
  unfold _parse_conn_str.
  intros [H|[H|H]]; rewrite H; simpl; repeat case_match; done.
Qed.

(** C2, as the code has it.  A connection string with an Endpoint
    [sb://host], a key name and a key yields a client whose namespace is
    [host] and whose credential is the shared-key credential of that name
    and key, for every call whose keywords contain none of [cls],
    [conn_str], [self], [fully_qualified_namespace] and [credential], and
    not [entity_name] beside a non-empty entity path. *)
Theorem from_connection_string_namespace_credential cs kw host policy key :
  field "Endpoint" cs = Some ("sb://" +:+ host) →
  field "SharedAccessKeyName" cs = Some policy → policy ≠ "" →
  field "SharedAccessKeyValue" cs = Some key → key ≠ "" →
  repeats_keyword reserved_keywords kw = false →
  kw !! "entity_name" = None ∨ nonempty (field "EntityPath" cs) = None →
  ∃ c, from_connection_string cs kw = inr c
       ∧ fully_qualified_namespace c = host
       ∧ _credential c = ServiceBusSharedKeyCredential policy key.
Proof.
  intros HE HP HPne HK HKne Hres Hent.
  pose proof (parse_valid cs host policy key HE HP HPne HK HKne) as Hparse.
  destruct (nonempty (field "EntityPath" cs)) as [e|] eqn:Hpath.
  - destruct Hent as [Hent|]; [|done].
    destruct (field "EntityPath" cs) as [e'|] eqn:Hf; [|done].
    assert (e' ≠ "") by (by destruct e').
    rewrite (from_connection_string_entity_path cs kw host policy key e') by done.
    change ("entity_name" :: reserved_keywords)
      with (["entity_name"] ++ reserved_keywords).
    rewrite repeats_keyword_app, Hres.
    rewrite repeats_keyword_false by (repeat constructor; done).
    by eexists.
  - rewrite (from_connection_string_no_entity_path cs kw host policy key _ Hparse Hpath).
    rewrite Hres. by eexists.
Qed.

Lemma from_connection_string_namespace_credential_witness :
  ∃ c, from_connection_string
         "Endpoint=sb://ns.servicebus.windows.net;SharedAccessKeyName=p;SharedAccessKeyValue=k;EntityPath=q1"
         {[ "logging_enable" := VBool true ]} = inr c
       ∧ fully_qualified_namespace c = "ns.servicebus.windows.net"
       ∧ _credential c = ServiceBusSharedKeyCredential "p" "k".
Proof.
  apply from_connection_string_namespace_credential.
  - reflexivity.
  - reflexivity.
  - discriminate.
  - reflexivity.
  - discriminate.
  - reflexivity.
  - left. reflexivity.
Defined.

(** C2 as stated fails: with a [credential] keyword a valid connection
    string gives [TypeError] and no client. *)
Lemma from_connection_string_credential_keyword_rejected :
  _parse_conn_str
    "Endpoint=sb://ns.servicebus.windows.net;SharedAccessKeyName=p;SharedAccessKeyValue=k"
    = inr ("ns.servicebus.windows.net", "p", "k", None)
  ∧ from_connection_string
      "Endpoint=sb://ns.servicebus.windows.net;SharedAccessKeyName=p;SharedAccessKeyValue=k"
      {[ "credential" := VObj true "credential" ]} = inl TypeError.
Proof. split; reflexivity. Qed.

(** C7, as the code has it.  A connection string that lacks the Endpoint,
    the key name or the key makes the parser fail with [ParseError], and
    the class method builds no client, whatever the keywords: it fails
    with that [ParseError], unless a keyword [cls] or [conn_str] makes
    the call itself fail with [TypeError] before the string is parsed. *)
Theorem from_connection_string_missing_field cs kw :
  nonempty (field "Endpoint" cs) = None
  ∨ nonempty (field "SharedAccessKeyName" cs) = None
  ∨ nonempty (field "SharedAccessKeyValue" cs) = None →
  _parse_conn_str cs = inl ParseError
  ∧ from_connection_string cs kw =
      inl (if repeats_keyword ["cls"; "conn_str"] kw then TypeError else ParseError).
Proof.
  intros Hmiss. apply parse_missing in Hmiss. split; [done|].
  unfold from_connection_string. rewrite Hmiss.
  by destruct (repeats_keyword _ kw).
Qed.

Lemma from_connection_string_missing_field_witness :
  _parse_conn_str "Endpoint=sb://ns.servicebus.windows.net;SharedAccessKeyName=p"
    = inl ParseError
  ∧ from_connection_string
      "Endpoint=sb://ns.servicebus.windows.net;SharedAccessKeyName=p"
      {[ "entity_name" := VStr "q" ]} = inl ParseError.
Proof.
  refine (from_connection_string_missing_field
            "Endpoint=sb://ns.servicebus.windows.net;SharedAccessKeyName=p"
            {[ "entity_name" := VStr "q" ]} _).
  right. right. reflexivity.
Defined.

(** C7 as stated fails: with a [conn_str] keyword the same string gives
    [TypeError], not [ParseError]. *)
Lemma from_connection_string_conn_str_keyword_first :
  _parse_conn_str "Endpoint=sb://ns.servicebus.windows.net;SharedAccessKeyName=p"
    = inl ParseError
  ∧ from_connection_string
      "Endpoint=sb://ns.servicebus.windows.net;SharedAccessKeyName=p"
      {[ "conn_str" := VStr "x" ]} = inl TypeError.
Proof. split; reflexivity. Qed.

(** ** The authentication URI *)

(** C5.  The authentication URI of a constructed client is
    [sb://<namespace>] when no entity name is given (the keyword is absent,
    [None] or the empty string) and [sb://<namespace>/<entity_name>] when
    one is given. *)
Theorem auth_uri_of_constructed_client ns cred (kw : gmap string value) :
  (kw !! "entity_name" = None →
     _auth_uri (__init__ ns cred kw) = "sb://" +:+ ns)
  ∧ (∀ e, kw !! "entity_name" = Some (VStr e) → e ≠ "" →
       _entity_name (__init__ ns cred kw) = VStr e
       ∧ _auth_uri (__init__ ns cred kw) = "sb://" +:+ ns +:+ "/" +:+ e)
  ∧ (kw !! "entity_name" = Some VNone ∨ kw !! "entity_name" = Some (VStr "") →
       _auth_uri (__init__ ns cred kw) = "sb://" +:+ ns)
  ∧ fully_qualified_namespace (__init__ ns cred kw) = ns.
Proof.
  unfold __init__, dict_get. simpl. split; [|split; [|split]].
  - by intros ->.
  - intros e -> He. simpl. apply truthy_VStr in He. simpl in He. by rewrite He.
  - by intros [-> | ->].
  - done.
Qed.

Lemma auth_uri_of_constructed_client_witness :
  _auth_uri (__init__ "ns.servicebus.windows.net" (TokenCredential "t") ∅)
    = "sb://ns.servicebus.windows.net"
  ∧ _auth_uri (__init__ "ns.servicebus.windows.net" (TokenCredential "t")
                 {[ "entity_name" := VStr "q1" ]})
    = "sb://ns.servicebus.windows.net/q1".
Proof.
  split.
  - apply (proj1 (auth_uri_of_constructed_client "ns.servicebus.windows.net"
                    (TokenCredential "t") ∅)).
    reflexivity.
  - apply (proj1 (proj2 (auth_uri_of_constructed_client "ns.servicebus.windows.net"
                           (TokenCredential "t") {[ "entity_name" := VStr "q1" ]}))
             "q1").
    + reflexivity.
    + discriminate.
Defined.

(** ** Closing and managed scopes *)

Ltac run_M :=
  unfold close, __exit__, __enter__, _create_uamqp_connection,
    get_queue_sender, get_queue_receiver,
    mbind, M_bind, mret, M_ret, get_self, alloc, set_connection, raise;
  simpl.

Lemma close_without_connection st :
  _connection (self st) = None → close st = (Return VNone, st).
Proof.
  intros Hconn. run_M. rewrite Hconn. by destruct (_connection_sharing _).
Qed.

Lemma close_without_sharing st :
  _connection_sharing (self st) = false → close st = (Return VNone, st).
Proof. intros Hflag. run_M. by rewrite Hflag. Qed.

(** [close] either raises or returns [None]. *)
Lemma close_returns_None st v st' :
  close st = (Return v, st') → v = VNone.
Proof.
  run_M. destruct (_connection_sharing _); [|congruence].
  destruct (_connection _) as [r|]; [|congruence].
  destruct (destroy r st) as [[[]|e] st1]; congruence.
Qed.

(** C3.  On a client that never got a shared connection, [close()] returns
    without error and leaves the whole state as it was, and so does any
    number of [close()] calls in a row. *)
Theorem close_is_noop_without_connection st n :
  _connection (self st) = None →
  close st = (Return VNone, st) ∧ close_times n st = (Return VNone, st).
Proof.
  intros Hconn. split; [by apply close_without_connection|].
  induction n as [|n IH]; simpl; [done|].
  unfold mbind, M_bind. by rewrite close_without_connection.
Qed.

Lemma close_is_noop_without_connection_witness :
  close {| self := __init__ "ns" (TokenCredential "t") ∅; heap := [];
           constructors := always_constructs |}
    = (Return VNone,
       {| self := __init__ "ns" (TokenCredential "t") ∅; heap := [];
          constructors := always_constructs |})
  ∧ close_times 4 {| self := __init__ "ns" (TokenCredential "t") ∅; heap := [];
                     constructors := always_constructs |}
    = (Return VNone,
       {| self := __init__ "ns" (TokenCredential "t") ∅; heap := [];
          constructors := always_constructs |}).
Proof.
  apply (close_is_noop_without_connection
           {| self := __init__ "ns" (TokenCredential "t") ∅; heap := [];
              constructors := always_constructs |} 4).
  reflexivity.
Defined.

Lemma exit_is_close exc st : __exit__ exc st = close st.
Proof.
  unfold __exit__, mbind, M_bind, mret, M_ret.
  destruct (close st) as [[v|e] st'] eqn:Hclose; [|done].
  by rewrite (close_returns_None _ _ _ Hclose).
Qed.

Lemma enter_never_raises st : ∃ st', __enter__ st = (Return tt, st').
Proof. run_M. destruct (_connection_sharing _); by eexists. Qed.

(** C6.  Entering the scope allocates the connection and stores it in the
    client when sharing is enabled and does nothing otherwise; [__exit__]
    is [close()] whatever it is given; and a [with] block runs [close()]
    on the state its body leaves, whether the body returned or raised,
    the body's exception going on to the caller. *)
Theorem managed_scope_enter_exit st :
  (if _connection_sharing (self st) then
     ∃ st', __enter__ st = (Return tt, st')
       ∧ heap st' = (heap st ++
           [UamqpConnection
              {| hostname := fully_qualified_namespace (self st);
                 sasl := create_authentication (self st);
                 debug := logging_enable (_config (self st));
                 destroy_calls := 0 |}])%list
       ∧ _connection (self st') = Some (length (heap st))
   else __enter__ st = (Return tt, st))
  ∧ (∀ exc, __exit__ exc st = close st)
  ∧ (∀ A (body : M A),
       with_client body st =
         let st1 := snd (__enter__ st) in
         let '(r, st2) := body st1 in
         match close st2 with
         | (Return _, st3) =>
             (match r with Return a => Return (Some a) | Raise e => Raise e end, st3)
         | (Raise e', st3) => (Raise e', st3)
         end).
Proof.
  split; [|split].
  - run_M. destruct (_connection_sharing (self st)); [|done].
    eexists; split; [done|]. by simpl.
  - intros exc. apply exit_is_close.
  - intros A body. unfold with_client.
    destruct (enter_never_raises st) as [st1 ->]. simpl.
    destruct (body st1) as [[a|e] st2]; rewrite exit_is_close;
      destruct (close st2) as [[v|e'] st3] eqn:Hclose; try done.
    by rewrite (close_returns_None _ _ _ Hclose).
Qed.

Lemma managed_scope_enter_exit_witness :
  ∃ st', __enter__ {| self := {| fully_qualified_namespace := "ns";
                                 _credential := TokenCredential "t";
                                 _config := Configuration_init ∅;
                                 _connection := None;
                                 _entity_name := VNone;
                                 _auth_uri := "sb://ns";
                                 _connection_sharing := true |};
                      heap := []; constructors := always_constructs |} = (Return tt, st')
    ∧ heap st' =
        [UamqpConnection
           {| hostname := "ns";
              sasl := {| auth_credential := TokenCredential "t"; auth_scope := "sb://ns" |};
              debug := VBool false;
              destroy_calls := 0 |}]
    ∧ _connection (self st') = Some 0.
Proof.
  exact (proj1 (managed_scope_enter_exit
                  {| self := {| fully_qualified_namespace := "ns";
                                _credential := TokenCredential "t";
                                _config := Configuration_init ∅;
                                _connection := None;
                                _entity_name := VNone;
                                _auth_uri := "sb://ns";
                                _connection_sharing := true |};
                     heap := []; constructors := always_constructs |})).
Defined.

(** ** Senders and receivers *)

(** The three ways a call of [get_queue_sender] ends: [TypeError] for a
    keyword it cannot carry, the exception of the constructor, or the new
    sender. *)
Lemma get_queue_sender_eq q kw st :
  get_queue_sender q kw st =
    if repeats_keyword (bound_parameters ++ handler_keywords) kw
    then (Raise TypeError, st)
    else match ServiceBusSender_init (constructors st) (handler_args (self st) q kw) with
         | Some e => (Raise e, st)
         | None =>
             (Return (length (heap st)),
              {| self := self st;
                 heap := heap st ++ [ServiceBusSender (handler_args (self st) q kw)];
                 constructors := constructors st |})
         end.
Proof.
  rewrite repeats_keyword_app.
  unfold get_queue_sender, construct, mbind, M_bind, get_self, raise.
  destruct (repeats_keyword bound_parameters kw); [done|].
  destruct (repeats_keyword handler_keywords kw); [done|]. simpl.
  by destruct (ServiceBusSender_init _ _).
Qed.

Lemma get_queue_receiver_eq q kw st :
  get_queue_receiver q kw st =
    if repeats_keyword (bound_parameters ++ handler_keywords) kw
    then (Raise TypeError, st)
    else match ServiceBusReceiver_init (constructors st) (handler_args (self st) q kw) with
         | Some e => (Raise e, st)
         | None =>
             (Return (length (heap st)),
              {| self := self st;
                 heap := heap st ++ [ServiceBusReceiver (handler_args (self st) q kw)];
                 constructors := constructors st |})
         end.
Proof.
  rewrite repeats_keyword_app.
  unfold get_queue_receiver, construct, mbind, M_bind, get_self, raise.
  destruct (repeats_keyword bound_parameters kw); [done|].
  destruct (repeats_keyword handler_keywords kw); [done|]. simpl.
  by destruct (ServiceBusReceiver_init _ _).
Qed.

Lemma lookup_snoc_new (h : list obj) (o : obj) : (h ++ [o]) !! length h = Some o.
Proof. rewrite lookup_app_r by done. by rewrite Nat.sub_diag. Qed.

Lemma get_queue_sender_self st q kw :
  self (snd (get_queue_sender q kw st)) = self st.
Proof. rewrite get_queue_sender_eq. by repeat case_match. Qed.

Lemma get_queue_receiver_self st q kw :
  self (snd (get_queue_receiver q kw st)) = self st.
Proof. rewrite get_queue_receiver_eq. by repeat case_match. Qed.

(** C10.  [get_queue_sender] and [get_queue_receiver] leave every field of
    the client and every object allocated before as they were, and when
    they return, the reference is to an object that did not exist before
    the call: a sender, or a receiver, built from the client's fields, the
    queue name and the caller's keywords.  They return whenever the
    keywords contain none of those the call cannot carry ([self] and the
    seven the method passes itself) and the constructor does not raise. *)
Theorem get_queue_handlers_frame st q kw :
  (self (snd (get_queue_sender q kw st)) = self st
   ∧ (∀ i o, heap st !! i = Some o → heap (snd (get_queue_sender q kw st)) !! i = Some o)
   ∧ (∀ r st', get_queue_sender q kw st = (Return r, st') →
        heap st !! r = None
        ∧ heap st' !! r = Some (ServiceBusSender (handler_args (self st) q kw)))
   ∧ (repeats_keyword (bound_parameters ++ handler_keywords) kw = false →
      ServiceBusSender_init (constructors st) (handler_args (self st) q kw) = None →
        ∃ r st', get_queue_sender q kw st = (Return r, st')))
  ∧ (self (snd (get_queue_receiver q kw st)) = self st
   ∧ (∀ i o, heap st !! i = Some o → heap (snd (get_queue_receiver q kw st)) !! i = Some o)
   ∧ (∀ r st', get_queue_receiver q kw st = (Return r, st') →
        heap st !! r = None
        ∧ heap st' !! r = Some (ServiceBusReceiver (handler_args (self st) q kw)))
   ∧ (repeats_keyword (bound_parameters ++ handler_keywords) kw = false →
      ServiceBusReceiver_init (constructors st) (handler_args (self st) q kw) = None →
        ∃ r st', get_queue_receiver q kw st = (Return r, st'))).
Proof.
  rewrite get_queue_sender_eq, get_queue_receiver_eq.
  destruct (repeats_keyword (bound_parameters ++ handler_keywords) kw); simpl.
  - split; (split; [done|split; [done|split; [intros ? ? [=]|intros [=]]]]).
  - split.
    + destruct (ServiceBusSender_init _ _) as [e|]; simpl.
      * split; [done|split; [done|split; [intros ? ? [=]|intros _ [=]]]].
      * split; [done|split; [|split]].
        -- intros i o Hi. by apply lookup_app_l_Some.
        -- intros r st' [= <- <-]. split;
             [by apply lookup_ge_None_2 | apply lookup_snoc_new].
        -- intros _ _. by eexists _, _.
    + destruct (ServiceBusReceiver_init _ _) as [e|]; simpl.
      * split; [done|split; [done|split; [intros ? ? [=]|intros _ [=]]]].
      * split; [done|split; [|split]].
        -- intros i o Hi. by apply lookup_app_l_Some.
        -- intros r st' [= <- <-]. split;
             [by apply lookup_ge_None_2 | apply lookup_snoc_new].
        -- intros _ _. by eexists _, _.
Qed.

Lemma get_queue_handlers_frame_witness :
  ∃ r st',
    get_queue_sender "q1" {[ "retry_total" := VInt 4 ]}
      {| self := __init__ "ns" (TokenCredential "t") ∅; heap := [];
         constructors := always_constructs |} = (Return r, st').
Proof.
  apply (get_queue_handlers_frame
           {| self := __init__ "ns" (TokenCredential "t") ∅; heap := [];
              constructors := always_constructs |}
           "q1" {[ "retry_total" := VInt 4 ]}); reflexivity.
Defined.

(** The same call ends in the constructor's exception when the
    constructor raises, and in [TypeError] when the caller passes [self]. *)
Example get_queue_sender_raises :
  get_queue_sender "q1" ∅
    {| self := __init__ "ns" (TokenCredential "t") ∅; heap := [];
       constructors := {| ServiceBusSender_init := λ _, Some ServiceBusConnectionError;
                          ServiceBusReceiver_init := λ _, None |} |}
  = (Raise ServiceBusConnectionError,
     {| self := __init__ "ns" (TokenCredential "t") ∅; heap := [];
        constructors := {| ServiceBusSender_init := λ _, Some ServiceBusConnectionError;
                           ServiceBusReceiver_init := λ _, None |} |})
  ∧ fst (get_queue_sender "q1" {[ "self" := VInt 1 ]}
           {| self := __init__ "ns" (TokenCredential "t") ∅; heap := [];
              constructors := always_constructs |})
    = Raise TypeError.
Proof. split; reflexivity. Qed.

(** Two calls in a row return different objects. *)
Lemma get_queue_sender_twice_distinct st q kw r st' q' kw' r' st'' :
  get_queue_sender q kw st = (Return r, st') →
  get_queue_sender q' kw' st' = (Return r', st'') →
  r ≠ r'.
Proof.
  intros H1 H2. rewrite get_queue_sender_eq in H1, H2.
  repeat case_match; simplify_eq. simpl. rewrite length_app. simpl. lia.
Qed.

(** C4, as the code has it.  A sender or receiver is constructed with the
    transport type, the proxy settings and the logging flag of the
    client's configuration, unchanged; its [retry_total] is the one among
    the keywords of the [get_queue_sender] or [get_queue_receiver] call,
    not the client's.  It is constructed whenever the keywords of the
    call contain none it cannot carry and the constructor does not
    raise. *)
Theorem handlers_receive_client_configuration st q kw :
  (∀ r st', get_queue_sender q kw st = (Return r, st') →
     ∃ a, heap st' !! r = Some (ServiceBusSender a)
          ∧ arg_transport_type a = transport_type (_config (self st))
          ∧ arg_http_proxy a = http_proxy (_config (self st))
          ∧ arg_logging_enable a = logging_enable (_config (self st))
          ∧ arg_kwargs a !! "retry_total" = kw !! "retry_total")
  ∧ (∀ r st', get_queue_receiver q kw st = (Return r, st') →
     ∃ a, heap st' !! r = Some (ServiceBusReceiver a)
          ∧ arg_transport_type a = transport_type (_config (self st))
          ∧ arg_http_proxy a = http_proxy (_config (self st))
          ∧ arg_logging_enable a = logging_enable (_config (self st))
          ∧ arg_kwargs a !! "retry_total" = kw !! "retry_total")
  ∧ (repeats_keyword (bound_parameters ++ handler_keywords) kw = false →
     ServiceBusSender_init (constructors st) (handler_args (self st) q kw) = None →
     ∃ r st', get_queue_sender q kw st = (Return r, st'))
  ∧ (repeats_keyword (bound_parameters ++ handler_keywords) kw = false →
     ServiceBusReceiver_init (constructors st) (handler_args (self st) q kw) = None →
     ∃ r st', get_queue_receiver q kw st = (Return r, st')).
Proof.
  rewrite get_queue_sender_eq, get_queue_receiver_eq.
  destruct (repeats_keyword (bound_parameters ++ handler_keywords) kw);
    [by repeat split|].
  split; [|split; [|split]].
  - destruct (ServiceBusSender_init _ _); [done|].
    intros r st' [= <- <-]. eexists. split; [apply lookup_snoc_new|done].
  - destruct (ServiceBusReceiver_init _ _); [done|].
    intros r st' [= <- <-]. eexists. split; [apply lookup_snoc_new|done].
  - intros _ ->. by eexists _, _.
  - intros _ ->. by eexists _, _.
Qed.

Lemma handlers_receive_client_configuration_witness :
  ∃ a,
    heap (snd (get_queue_sender "q1" {[ "retry_total" := VInt 4 ]}
                 {| self := __init__ "ns" (TokenCredential "t")
                              {[ "logging_enable" := VBool true;
                                 "retry_total" := VInt 5 ]};
                    heap := []; constructors := always_constructs |})) !! 0
      = Some (ServiceBusSender a)
    ∧ arg_transport_type a = VTransport Amqp
    ∧ arg_http_proxy a = VNone
    ∧ arg_logging_enable a = VBool true
    ∧ arg_kwargs a !! "retry_total" = Some (VInt 4).
Proof.
  refine (proj1 (handlers_receive_client_configuration
                   {| self := __init__ "ns" (TokenCredential "t")
                                {[ "logging_enable" := VBool true;
                                   "retry_total" := VInt 5 ]};
                      heap := []; constructors := always_constructs |}
                   "q1" {[ "retry_total" := VInt 4 ]}) 0 _ _).
  reflexivity.
Defined.

(** C4 as stated fails for the retry policy: a client built with
    [retry_total=5] hands a sender no [retry_total] at all. *)
Lemma client_retry_total_not_passed :
  retry_total (_config (__init__ "ns" (TokenCredential "t")
                          {[ "retry_total" := VInt 5 ]})) = VInt 5
  ∧ ∃ a,
      get_queue_sender "q" ∅
        {| self := __init__ "ns" (TokenCredential "t") {[ "retry_total" := VInt 5 ]};
           heap := []; constructors := always_constructs |}
      = (Return 0,
         {| self := __init__ "ns" (TokenCredential "t") {[ "retry_total" := VInt 5 ]};
            heap := [ServiceBusSender a]; constructors := always_constructs |})
      ∧ arg_kwargs a = ∅
      ∧ arg_kwargs a !! "retry_total" = None.
Proof.
  split; [reflexivity|]. eexists. split; [reflexivity|]. split; reflexivity.
Qed.

(** ** Connection sharing is never switched on *)

Lemma perform_without_sharing st c :
  _connection_sharing (self st) = false → self (perform c st) = self st.
Proof.
  intros Hflag. destruct c as [|exc| |q kw|q kw]; simpl.
  - run_M. by rewrite Hflag.
  - by rewrite exit_is_close, close_without_sharing.
  - by rewrite close_without_sharing.
  - apply (get_queue_sender_self st q kw).
  - apply (get_queue_receiver_self st q kw).
Qed.

Lemma reachable_invariant st :
  reachable st →
  _connection_sharing (self st) = false ∧ _connection (self st) = None.
Proof.
  induction 1 as [ns cred kw h|st c _ [IHflag IHconn]]; [done|].
  by rewrite perform_without_sharing.
Qed.

(** C9.  Construction sets the sharing flag to [False] and no public call
    changes it, so in every state the client can reach the flag is off
    and [_connection] is [None]; there [__enter__] and [close()] leave the
    state untouched (no connection made, none destroyed) and every sender
    or receiver is constructed with [connection=None]. *)
Theorem connection_sharing_stays_off st :
  reachable st →
  _connection_sharing (self st) = false
  ∧ _connection (self st) = None
  ∧ __enter__ st = (Return tt, st)
  ∧ close st = (Return VNone, st)
  ∧ (∀ q kw r st', get_queue_sender q kw st = (Return r, st') →
       ∃ a, heap st' !! r = Some (ServiceBusSender a) ∧ arg_connection a = None)
  ∧ (∀ q kw r st', get_queue_receiver q kw st = (Return r, st') →
       ∃ a, heap st' !! r = Some (ServiceBusReceiver a) ∧ arg_connection a = None).
Proof.
  intros [Hflag Hconn]%reachable_invariant.
  split; [done|]. split; [done|]. split; [|split; [|split]].
  - run_M. by rewrite Hflag.
  - by apply close_without_sharing.
  - intros q kw r st'. rewrite get_queue_sender_eq.
    destruct (repeats_keyword _ _); [done|].
    destruct (ServiceBusSender_init _ _); [done|]. intros [= <- <-].
    eexists. split; [apply lookup_snoc_new|done].
  - intros q kw r st'. rewrite get_queue_receiver_eq.
    destruct (repeats_keyword _ _); [done|].
    destruct (ServiceBusReceiver_init _ _); [done|]. intros [= <- <-].
    eexists. split; [apply lookup_snoc_new|done].
Qed.

Lemma connection_sharing_stays_off_witness :
  _connection_sharing
    (self (perform (Call_get_queue_sender "q1" ∅)
             (perform Call_enter
                {| self := __init__ "ns" (TokenCredential "t") ∅; heap := [];
                   constructors := always_constructs |})))
  = false.
Proof.
  apply (connection_sharing_stays_off
           (perform (Call_get_queue_sender "q1" ∅)
              (perform Call_enter
                 {| self := __init__ "ns" (TokenCredential "t") ∅; heap := [];
                    constructors := always_constructs |}))).
  apply reachable_call, reachable_call, reachable_init.
Defined.

(** ** The retry executor *)

Section RetryFacts.
Import Retry.
Context {W A : Type}.
Variable operation : W → (failure + A) * W.

(** An error that is not transient ends the loop at once. *)
Lemma retry_loop_propagates remaining made last w e w' :
  operation w = (inl e, w') → is_transient e = false →
  retry_loop operation (S remaining) made last w = (Propagated e, S made, w').
Proof. intros Hop He. simpl. by rewrite Hop, He. Qed.

(** A transient error uses up one attempt. *)
Lemma retry_loop_retries remaining made last w e w' :
  operation w = (inl e, w') → is_transient e = true →
  retry_loop operation (S remaining) made last w
    = retry_loop operation remaining (S made) (Some e) w'.
Proof. intros Hop He. simpl. by rewrite Hop, He. Qed.

(** The loop never makes more attempts than it was given. *)
Lemma retry_loop_attempts_bound remaining made last w :
  (made ≤ snd (fst (retry_loop operation remaining made last w)))%nat
  ∧ (snd (fst (retry_loop operation remaining made last w)) ≤ made + remaining)%nat.
Proof.
  revert made last w. induction remaining as [|k IH]; intros made last w; simpl.
  - lia.
  - destruct (operation w) as [[e|a] w']; simpl; [|lia].
    destruct (is_transient e); simpl; [|lia].
    specialize (IH (S made) (Some e) w'). lia.
Qed.

(** When every attempt fails with a transient error, all the attempts
    are made and the loop ends in [ServiceBusError]. *)
Lemma retry_loop_exhausts remaining made last w :
  (∀ w, ∃ e w', operation w = (inl e, w') ∧ is_transient e = true) →
  ∃ last' w',
    retry_loop operation remaining made last w
      = (ServiceBusError last' (made + remaining), made + remaining, w').
Proof.
  intros Hfail. revert made last w.
  induction remaining as [|k IH]; intros made last w.
  - simpl. rewrite Nat.add_0_r. by eexists _, _.
  - destruct (Hfail w) as (e & w' & Hop & He).
    rewrite (retry_loop_retries _ _ _ _ _ _ Hop He).
    destruct (IH (S made) (Some e) w') as (last' & w'' & ->).
    replace (S made + k) with (made + S k) by lia. by eexists _, _.
Qed.

(** C8.  With [retry_total = 3] and three transient failures in a row the
    executor raises [ServiceBusError] around the third error, annotated
    with 3 attempts, having made exactly 3 attempts and left the world
    as the third one did; with any [retry_total] it makes at most that
    many attempts; and an authorization or validation error is passed
    on as it is after the attempt that produced it, the first included. *)
Theorem retry_executor_three_attempts :
  (∀ w0 w1 w2 w3 e1 e2 e3,
     operation w0 = (inl e1, w1) → class e1 = Transient →
     operation w1 = (inl e2, w2) → class e2 = Transient →
     operation w2 = (inl e3, w3) → class e3 = Transient →
     do_retryable_operation operation 3 w0 = (ServiceBusError (Some e3) 3, 3, w3))
  ∧ (∀ retry_total w,
       (snd (fst (do_retryable_operation operation retry_total w)) ≤ retry_total)%nat)
  ∧ (∀ retry_total w e w',
       operation w = (inl e, w') →
       class e = Authorization ∨ class e = Validation →
       do_retryable_operation operation (S retry_total) w = (Propagated e, 1, w'))
  ∧ (∀ remaining made last w e w',
       operation w = (inl e, w') →
       class e = Authorization ∨ class e = Validation →
       retry_loop operation (S remaining) made last w = (Propagated e, S made, w')).
Proof.
  split; [|split; [|split]].
  - intros w0 w1 w2 w3 e1 e2 e3 H1 T1 H2 T2 H3 T3.
    unfold do_retryable_operation.
    rewrite (retry_loop_retries _ _ _ _ _ _ H1) by (unfold is_transient; by rewrite T1).
    rewrite (retry_loop_retries _ _ _ _ _ _ H2) by (unfold is_transient; by rewrite T2).
    rewrite (retry_loop_retries _ _ _ _ _ _ H3) by (unfold is_transient; by rewrite T3).
    done.
  - intros retry_total w. unfold do_retryable_operation.
    pose proof (retry_loop_attempts_bound retry_total 0 None w). lia.
  - intros retry_total w e w' Hop Hclass. unfold do_retryable_operation.
    apply retry_loop_propagates; [done|].
    unfold is_transient. by destruct Hclass as [-> | ->].
  - intros remaining made last w e w' Hop Hclass.
    apply retry_loop_propagates; [done|].
    unfold is_transient. by destruct Hclass as [-> | ->].
Qed.
End RetryFacts.

Lemma retry_executor_three_attempts_witness :
  Retry.do_retryable_operation Retry.always_times_out 3 0
    = (Retry.ServiceBusError
         (Some {| Retry.class := Retry.Transient; Retry.name := "timeout" |}) 3, 3, 3)
  ∧ Retry.do_retryable_operation Retry.always_unauthorized 3 0
    = (Retry.Propagated
         {| Retry.class := Retry.Authorization; Retry.name := "unauthorized" |}, 1, 1).
Proof.
  split.
  - apply (proj1 (retry_executor_three_attempts Retry.always_times_out) 0 1 2 3
             {| Retry.class := Retry.Transient; Retry.name := "timeout" |}
             {| Retry.class := Retry.Transient; Retry.name := "timeout" |}
             {| Retry.class := Retry.Transient; Retry.name := "timeout" |});
      reflexivity.
  - apply (proj1 (proj2 (proj2 (retry_executor_three_attempts Retry.always_unauthorized)))).
    + reflexivity.
    + left. reflexivity.
Defined.

(** * Further properties of the client *)

(** ** Construction from a connection string, continued *)

Lemma init_with_entity_name ns cred (kw : gmap string value) v :
  _entity_name (__init__ ns cred (<["entity_name" := v]> kw)) = v
  ∧ _auth_uri (__init__ ns cred (<["entity_name" := v]> kw)) =
      if truthy v then "sb://" +:+ ns +:+ "/" +:+ py_str v else "sb://" +:+ ns.
Proof.
  unfold __init__, dict_get. simpl. rewrite lookup_insert_eq. simpl.
  split; [done|]. by destruct (truthy v).
Qed.

(** X1.  When the connection string has no entity path, or an empty one,
    and the keywords contain none of [cls], [conn_str], [self],
    [fully_qualified_namespace] and [credential], the [entity_name]
    keyword is taken out of the keywords and becomes the client's entity
    name, and the authentication URI follows it. *)
Theorem from_connection_string_keyword_entity cs kw host policy key o :
  _parse_conn_str cs = inr (host, policy, key, o) → nonempty o = None →
  repeats_keyword reserved_keywords kw = false →
  ∃ c, from_connection_string cs kw = inr c
       ∧ fully_qualified_namespace c = host
       ∧ _entity_name c = dict_get kw "entity_name" VNone
       ∧ _auth_uri c =
           if truthy (dict_get kw "entity_name" VNone)
           then "sb://" +:+ host +:+ "/" +:+ py_str (dict_get kw "entity_name" VNone)
           else "sb://" +:+ host.
Proof.
  intros Hparse Ho Hres.
  rewrite (from_connection_string_no_entity_path cs kw host policy key o Hparse Ho).
  rewrite Hres.
  eexists. split; [done|]. split; [done|]. apply init_with_entity_name.
Qed.

Lemma from_connection_string_keyword_entity_witness :
  ∃ c, from_connection_string
         "Endpoint=sb://ns.servicebus.windows.net;SharedAccessKeyName=p;SharedAccessKeyValue=k"
         {[ "entity_name" := VStr "q2" ]} = inr c
       ∧ fully_qualified_namespace c = "ns.servicebus.windows.net"
       ∧ _entity_name c = VStr "q2"
       ∧ _auth_uri c = "sb://ns.servicebus.windows.net/q2".
Proof.
  refine (from_connection_string_keyword_entity
            "Endpoint=sb://ns.servicebus.windows.net;SharedAccessKeyName=p;SharedAccessKeyValue=k"
            {[ "entity_name" := VStr "q2" ]}
            "ns.servicebus.windows.net" "p" "k" None _ _ _); reflexivity.
Defined.

(** X2.  When the connection string has an entity path and the keywords
    contain none of [entity_name], [cls], [conn_str], [self],
    [fully_qualified_namespace] and [credential], the entity path is the
    client's entity name and the authentication URI ends in it. *)
Theorem from_connection_string_entity_path_used cs kw host policy key e :
  _parse_conn_str cs = inr (host, policy, key, Some e) → e ≠ "" →
  repeats_keyword ("entity_name" :: reserved_keywords) kw = false →
  ∃ c, from_connection_string cs kw = inr c
       ∧ _entity_name c = VStr e
       ∧ _auth_uri c = "sb://" +:+ host +:+ "/" +:+ e.
Proof.
  intros Hparse He Hres.
  rewrite (from_connection_string_entity_path cs kw host policy key e) by done.
  rewrite Hres.
  eexists. split; [done|].
  destruct (init_with_entity_name host (ServiceBusSharedKeyCredential policy key)
              kw (VStr e)) as [-> ->].
  apply truthy_VStr in He. by rewrite He.
Qed.

Lemma from_connection_string_entity_path_used_witness :
  ∃ c, from_connection_string
         "Endpoint=sb://ns.servicebus.windows.net;SharedAccessKeyName=p;SharedAccessKeyValue=k;EntityPath=q1"
         ∅ = inr c
       ∧ _entity_name c = VStr "q1"
       ∧ _auth_uri c = "sb://ns.servicebus.windows.net/q1".
Proof.
  apply (from_connection_string_entity_path_used
           "Endpoint=sb://ns.servicebus.windows.net;SharedAccessKeyName=p;SharedAccessKeyValue=k;EntityPath=q1"
           ∅ "ns.servicebus.windows.net" "p" "k" "q1");
    [reflexivity|discriminate|reflexivity].
Defined.

Lemma repeats_keyword_true_inv (explicit : list string) (kwargs : gmap string value) :
  repeats_keyword explicit kwargs = true →
  ∃ k, k ∈ explicit ∧ is_Some (kwargs !! k).
Proof.
  unfold repeats_keyword. intros (k & Hin & Hk)%existsb_exists.
  exists k. split; [by apply list_elem_of_In|]. by apply bool_decide_eq_true in Hk.
Qed.

(** X3.  For a string that parses, the class method raises [TypeError]
    exactly when the keywords contain one of [cls], [conn_str], [self],
    [fully_qualified_namespace] and [credential], or contain
    [entity_name] while the string has a non-empty entity path; in every
    other case it returns a client. *)
Theorem from_connection_string_type_error_iff cs kw host policy key o :
  _parse_conn_str cs = inr (host, policy, key, o) →
  (from_connection_string cs kw = inl TypeError ↔
     (∃ k, k ∈ reserved_keywords ∧ is_Some (kw !! k))
     ∨ (nonempty o ≠ None ∧ is_Some (kw !! "entity_name")))
  ∧ (from_connection_string cs kw ≠ inl TypeError →
     ∃ c, from_connection_string cs kw = inr c).
Proof.
  intros Hparse.
  destruct (nonempty o) as [e|] eqn:Ho.
  - assert (o = Some e ∧ e ≠ "") as [-> He].
    { destruct o as [[|a s]|]; simplify_eq/=; done. }
    rewrite (from_connection_string_entity_path cs kw host policy key e) by done.
    destruct (repeats_keyword _ kw) eqn:Hrep.
    + split; [|done]. split; [|done]. intros _.
      apply repeats_keyword_true_inv in Hrep as (k & Hin & Hk).
      apply elem_of_cons in Hin as [->|Hin]; [by right|].
      left. by exists k.
    + split; [|by eexists]. split; [done|]. intros Hkw.
      assert (repeats_keyword ("entity_name" :: reserved_keywords) kw = true)
        as Htrue; [|congruence].
      destruct Hkw as [(k & Hin & Hk)|[_ Hk]].
      * apply (repeats_keyword_true _ _ k); [|done]. apply elem_of_cons. by right.
      * apply (repeats_keyword_true _ _ "entity_name"); [|done].
        apply elem_of_cons. by left.
  - rewrite (from_connection_string_no_entity_path cs kw host policy key o Hparse Ho).
    destruct (repeats_keyword reserved_keywords kw) eqn:Hrep.
    + split; [|done]. split; [|done]. intros _.
      left. by apply repeats_keyword_true_inv.
    + split; [|by eexists]. split; [done|].
      intros [(k & Hin & Hk)|[? _]]; [|done].
      by rewrite (repeats_keyword_true _ _ k Hin Hk) in Hrep.
Qed.

Lemma from_connection_string_type_error_iff_witness :
  from_connection_string
    "Endpoint=sb://ns.servicebus.windows.net;SharedAccessKeyName=p;SharedAccessKeyValue=k"
    {[ "cls" := VNone ]} = inl TypeError.
Proof.
  apply (proj1 (from_connection_string_type_error_iff
                  "Endpoint=sb://ns.servicebus.windows.net;SharedAccessKeyName=p;SharedAccessKeyValue=k"
                  {[ "cls" := VNone ]}
                  "ns.servicebus.windows.net" "p" "k" None eq_refl)).
  left. exists "cls". split; [apply elem_of_cons; by left|by eexists].
Defined.

(** ** Senders and receivers, continued *)

(** X4.  [get_queue_sender] and [get_queue_receiver] raise exactly when
    the caller's keywords contain [self] or one of the seven the method
    passes itself, or when the constructor raises; with such a keyword
    the exception is [TypeError]; and whenever they raise, nothing is
    constructed and the state is as before. *)
Theorem get_queue_handlers_raise_iff st q kw :
  ((∃ e, fst (get_queue_sender q kw st) = Raise e) ↔
     (∃ k, k ∈ bound_parameters ++ handler_keywords ∧ is_Some (kw !! k))
     ∨ is_Some (ServiceBusSender_init (constructors st) (handler_args (self st) q kw)))
  ∧ ((∃ k, k ∈ bound_parameters ++ handler_keywords ∧ is_Some (kw !! k)) →
       get_queue_sender q kw st = (Raise TypeError, st))
  ∧ (∀ e, fst (get_queue_sender q kw st) = Raise e →
       snd (get_queue_sender q kw st) = st)
  ∧ ((∃ e, fst (get_queue_receiver q kw st) = Raise e) ↔
       (∃ k, k ∈ bound_parameters ++ handler_keywords ∧ is_Some (kw !! k))
       ∨ is_Some (ServiceBusReceiver_init (constructors st) (handler_args (self st) q kw)))
  ∧ ((∃ k, k ∈ bound_parameters ++ handler_keywords ∧ is_Some (kw !! k)) →
       get_queue_receiver q kw st = (Raise TypeError, st))
  ∧ (∀ e, fst (get_queue_receiver q kw st) = Raise e →
       snd (get_queue_receiver q kw st) = st).
Proof.
  rewrite get_queue_sender_eq, get_queue_receiver_eq.
  destruct (repeats_keyword (bound_parameters ++ handler_keywords) kw) eqn:Hrep;
    simpl.
  - pose proof (repeats_keyword_true_inv _ _ Hrep) as Hk.
    repeat split; try done; intros; try (by eexists); by left.
  - assert (¬ ∃ k, k ∈ bound_parameters ++ handler_keywords ∧ is_Some (kw !! k))
      as Hnone.
    { intros (k & Hin & Hk). by rewrite (repeats_keyword_true _ _ k Hin Hk) in Hrep. }
    split; [|split; [|split; [|split; [|split]]]]; try (by intros ?%Hnone).
    + destruct (ServiceBusSender_init _ _) as [e|]; simpl.
      * split; [intros _; right; by eexists|intros _; by eexists].
      * split; [by intros [e [=]]|]. intros [?%Hnone|[e [=]]]. done.
    + by destruct (ServiceBusSender_init _ _).
    + destruct (ServiceBusReceiver_init _ _) as [e|]; simpl.
      * split; [intros _; right; by eexists|intros _; by eexists].
      * split; [by intros [e [=]]|]. intros [?%Hnone|[e [=]]]. done.
    + by destruct (ServiceBusReceiver_init _ _).
Qed.

Lemma get_queue_handlers_raise_iff_witness :
  get_queue_sender "q1" {[ "self" := VInt 1 ]}
    {| self := __init__ "ns" (TokenCredential "t") ∅; heap := [];
       constructors := always_constructs |}
  = (Raise TypeError,
     {| self := __init__ "ns" (TokenCredential "t") ∅; heap := [];
        constructors := always_constructs |}).
Proof.
  apply (proj1 (proj2 (get_queue_handlers_raise_iff
                         {| self := __init__ "ns" (TokenCredential "t") ∅; heap := [];
                            constructors := always_constructs |}
                         "q1" {[ "self" := VInt 1 ]}))).
  exists "self". split; [apply elem_of_cons; by left|by eexists].
Defined.

(** X5.  A client built from a connection string hands a sender the host
    of the string as namespace, the shared-key credential of the string,
    the queue name of the call whatever the client's own entity name is,
    and no connection, whenever the call's keywords contain none it
    cannot carry and the constructor does not raise. *)
Theorem sender_of_connection_string_client cs ckw c h ctors q kw :
  from_connection_string cs ckw = inr c →
  repeats_keyword (bound_parameters ++ handler_keywords) kw = false →
  ServiceBusSender_init ctors (handler_args c q kw) = None →
  ∃ host policy key o r st' a,
    _parse_conn_str cs = inr (host, policy, key, o)
    ∧ get_queue_sender q kw {| self := c; heap := h; constructors := ctors |}
      = (Return r, st')
    ∧ heap st' !! r = Some (ServiceBusSender a)
    ∧ arg_fully_qualified_namespace a = host
    ∧ arg_credential a = ServiceBusSharedKeyCredential policy key
    ∧ arg_queue_name a = q
    ∧ arg_connection a = None
    ∧ arg_kwargs a = kw.
Proof.
  intros Hfrom Hkw Hinit. unfold from_connection_string in Hfrom.
  destruct (repeats_keyword ["cls"; "conn_str"] ckw); [done|].
  destruct (_parse_conn_str cs) as [e|[[[host policy] key] o]]; [done|].
  exists host, policy, key, o.
  rewrite get_queue_sender_eq, Hkw. simpl. rewrite Hinit.
  eexists _, _, _. split; [done|]. split; [done|].
  split; [apply lookup_snoc_new|].
  clear Hkw Hinit. simpl in Hfrom. unfold dict_pop in Hfrom.
  repeat case_match; simplify_eq; done.
Qed.

Lemma sender_of_connection_string_client_witness :
  ∃ host policy key o r st' a,
    _parse_conn_str
      "Endpoint=sb://ns.servicebus.windows.net;SharedAccessKeyName=p;SharedAccessKeyValue=k;EntityPath=q1"
      = inr (host, policy, key, o)
    ∧ get_queue_sender "q7" ∅
        {| self := __init__ "ns.servicebus.windows.net"
                     (ServiceBusSharedKeyCredential "p" "k")
                     {[ "entity_name" := VStr "q1" ]};
           heap := []; constructors := always_constructs |} = (Return r, st')
    ∧ heap st' !! r = Some (ServiceBusSender a)
    ∧ arg_fully_qualified_namespace a = host
    ∧ arg_credential a = ServiceBusSharedKeyCredential policy key
    ∧ arg_queue_name a = "q7"
    ∧ arg_connection a = None
    ∧ arg_kwargs a = ∅.
Proof.
  refine (sender_of_connection_string_client
            "Endpoint=sb://ns.servicebus.windows.net;SharedAccessKeyName=p;SharedAccessKeyValue=k;EntityPath=q1"
            ∅ _ [] always_constructs "q7" ∅ _ _ _); reflexivity.
Defined.

(** ** What the public calls leave alone *)

Lemma destroy_keeps_handlers r st i o :
  heap st !! i = Some o → (∀ c, o ≠ UamqpConnection c) →
  heap (snd (destroy r st)) !! i = Some o.
Proof.
  intros Hi Ho. unfold destroy.
  destruct (heap st !! r) as [[a|a|c]|] eqn:Hr; simpl; try done.
  destruct (decide (r = i)) as [->|Hne].
  - unfold ref in *. assert (o = UamqpConnection c) by congruence.
    by destruct (Ho c).
  - by rewrite list_lookup_insert_ne.
Qed.

Lemma destroy_self r st : self (snd (destroy r st)) = self st.
Proof. unfold destroy. by repeat case_match. Qed.

Lemma destroy_length r st : length (heap (snd (destroy r st))) = length (heap st).
Proof.
  unfold destroy. repeat case_match; simpl; try done. by rewrite length_insert.
Qed.

Lemma close_snd st :
  snd (close st) =
    if _connection_sharing (self st) then
      match _connection (self st) with
      | Some r => snd (destroy r st)
      | None => st
      end
    else st.
Proof.
  run_M. destruct (_connection_sharing _); [|done].
  destruct (_connection _) as [r|]; [|done].
  by destruct (destroy r st) as [[[]|e] st'].
Qed.

(** X6.  No public call, [close()] included, changes or removes a sender
    or receiver that exists already, whatever the sharing flag is, and the
    number of objects never goes down. *)
Theorem public_calls_keep_handlers st c i o :
  heap st !! i = Some o → (∀ conn, o ≠ UamqpConnection conn) →
  heap (perform c st) !! i = Some o
  ∧ (length (heap st) ≤ length (heap (perform c st)))%nat.
Proof.
  intros Hi Ho.
  assert (heap (snd (close st)) !! i = Some o
          ∧ (length (heap st) ≤ length (heap (snd (close st))))%nat) as Hclose.
  { rewrite close_snd. destruct (_connection_sharing _); [|done].
    destruct (_connection _) as [r|]; [|done].
    split; [by apply destroy_keeps_handlers|by rewrite destroy_length]. }
  destruct c as [|exc| |q' kw'|q' kw']; simpl.
  - run_M. destruct (_connection_sharing _); simpl; [|done].
    split; [by apply lookup_app_l_Some|rewrite length_app; lia].
  - by rewrite exit_is_close.
  - done.
  - rewrite get_queue_sender_eq. destruct (repeats_keyword _ _); simpl; [done|].
    destruct (ServiceBusSender_init _ _); simpl; [done|].
    split; [by apply lookup_app_l_Some|rewrite length_app; lia].
  - rewrite get_queue_receiver_eq. destruct (repeats_keyword _ _); simpl; [done|].
    destruct (ServiceBusReceiver_init _ _); simpl; [done|].
    split; [by apply lookup_app_l_Some|rewrite length_app; lia].
Qed.

Lemma public_calls_keep_handlers_witness :
  heap (perform Call_close
          {| self := enable_sharing (__init__ "ns" (TokenCredential "t") ∅);
             heap := [ServiceBusSender
                        (handler_args (__init__ "ns" (TokenCredential "t") ∅) "q" ∅)];
             constructors := always_constructs |})
    !! 0
  = Some (ServiceBusSender (handler_args (__init__ "ns" (TokenCredential "t") ∅) "q" ∅)).
Proof.
  refine (proj1 (public_calls_keep_handlers
                   {| self := enable_sharing (__init__ "ns" (TokenCredential "t") ∅);
                      heap := [ServiceBusSender
                                 (handler_args (__init__ "ns" (TokenCredential "t") ∅)
                                    "q" ∅)];
                      constructors := always_constructs |}
                   Call_close 0 _ _ _)).
  - reflexivity.
  - intros conn. discriminate.
Defined.

Lemma perform_all_reachable cs st : reachable st → reachable (perform_all cs st).
Proof.
  unfold perform_all. revert st.
  induction cs as [|c cs IH]; intros st Hst; simpl; [done|].
  apply IH. by apply reachable_call.
Qed.

Lemma perform_heap_prefix st c :
  _connection_sharing (self st) = false → heap st `prefix_of` heap (perform c st).
Proof.
  intros Hflag. destruct c as [|exc| |q kw|q kw]; simpl.
  - run_M. by rewrite Hflag.
  - by rewrite exit_is_close, close_without_sharing.
  - by rewrite close_without_sharing.
  - rewrite get_queue_sender_eq. destruct (repeats_keyword _ _); simpl; [done|].
    destruct (ServiceBusSender_init _ _); simpl; [done|].
    by apply prefix_app_r.
  - rewrite get_queue_receiver_eq. destruct (repeats_keyword _ _); simpl; [done|].
    destruct (ServiceBusReceiver_init _ _); simpl; [done|].
    by apply prefix_app_r.
Qed.

(** X7.  Whatever public calls follow its construction, in any number and
    order, the client keeps the fields [__init__] gave it, and the objects
    that existed before are all still there, unchanged and in place. *)
Theorem client_is_never_modified ns cred (kw : gmap string value) h ctors cs :
  self (perform_all cs
          {| self := __init__ ns cred kw; heap := h; constructors := ctors |})
    = __init__ ns cred kw
  ∧ h `prefix_of`
      heap (perform_all cs
              {| self := __init__ ns cred kw; heap := h; constructors := ctors |}).
Proof.
  assert (∀ st, reachable st →
            self (perform_all cs st) = self st
            ∧ heap st `prefix_of` heap (perform_all cs st)) as Hgen.
  { unfold perform_all. induction cs as [|c cs IH]; intros st Hst; simpl; [done|].
    destruct (reachable_invariant st Hst) as [Hflag _].
    destruct (IH (perform c st) (reachable_call _ c Hst)) as [Hself Hheap].
    rewrite Hself. split; [by apply perform_without_sharing|].
    etrans; [by apply perform_heap_prefix|done]. }
  apply (Hgen {| self := __init__ ns cred kw; heap := h; constructors := ctors |}),
    reachable_init.
Qed.

(** ** With sharing switched on *)

Lemma enter_with_sharing st :
  _connection_sharing (self st) = true →
  ∃ c', __enter__ st =
          (Return tt,
           {| self := c';
              heap := heap st ++ [UamqpConnection (connection_of (self st))];
              constructors := constructors st |})
        ∧ _connection c' = Some (length (heap st))
        ∧ _connection_sharing c' = true
        ∧ fully_qualified_namespace c' = fully_qualified_namespace (self st)
        ∧ _credential c' = _credential (self st)
        ∧ _config c' = _config (self st)
        ∧ _auth_uri c' = _auth_uri (self st).
Proof.
  intros Hflag. run_M. rewrite Hflag. by eexists.
Qed.

Lemma close_with_connection st r conn :
  _connection_sharing (self st) = true →
  _connection (self st) = Some r →
  heap st !! r = Some (UamqpConnection conn) →
  close st =
    (Return VNone,
     {| self := self st;
        heap := <[r := UamqpConnection (destroyed 1 conn)]> (heap st);
        constructors := constructors st |}).
Proof.
  intros Hflag Hconn Hr. run_M. rewrite Hflag, Hconn.
  unfold destroy. unfold ref in *. by rewrite Hr.
Qed.

(** X8.  With sharing on and a connection stored, every [close()] calls
    [destroy()] on that connection again: [n] calls in a row leave it
    destroyed [n] more times, the client still pointing at it and
    everything else as it was. *)
Theorem close_destroys_every_time n st r conn :
  _connection_sharing (self st) = true →
  _connection (self st) = Some r →
  heap st !! r = Some (UamqpConnection conn) →
  close_times n st =
    (Return VNone,
     {| self := self st;
        heap := <[r := UamqpConnection (destroyed n conn)]> (heap st);
        constructors := constructors st |}).
Proof.
  revert st conn. induction n as [|n IH]; intros st conn Hflag Hconn Hr.
  - simpl. unfold mret, M_ret. destruct st as [c h ctors]. simpl in *.
    f_equal. f_equal. symmetry. apply list_insert_id.
    unfold ref in *. rewrite Hr. by destruct conn.
  - simpl. unfold mbind, M_bind.
    rewrite (close_with_connection st r conn) by done.
    rewrite (IH _ (destroyed 1 conn)); simpl; try done.
    + rewrite list_insert_insert_eq. unfold destroyed. simpl.
      by rewrite Nat.add_succ_r.
    + apply list_lookup_insert_eq. by eapply lookup_lt_Some.
Qed.

Lemma close_destroys_every_time_witness :
  close_times 2
    (snd (__enter__
            {| self := enable_sharing (__init__ "ns" (TokenCredential "t") ∅);
               heap := []; constructors := always_constructs |}))
  = (Return VNone,
     {| self := self (snd (__enter__
                             {| self := enable_sharing
                                          (__init__ "ns" (TokenCredential "t") ∅);
                                heap := []; constructors := always_constructs |}));
        heap := [UamqpConnection
                   (destroyed 2
                      (connection_of
                         (enable_sharing (__init__ "ns" (TokenCredential "t") ∅))))];
        constructors := always_constructs |}).
Proof.
  refine (close_destroys_every_time 2
            (snd (__enter__
                    {| self := enable_sharing (__init__ "ns" (TokenCredential "t") ∅);
                       heap := []; constructors := always_constructs |}))
            0
            (connection_of (enable_sharing (__init__ "ns" (TokenCredential "t") ∅)))
            _ _ _);
    reflexivity.
Defined.

(** X9.  With sharing on, a sender and a receiver obtained after entering
    the client are both constructed with the one connection [__enter__]
    created, which the client keeps in [_connection], whenever the
    keywords of the two calls contain none they cannot carry and neither
    constructor raises. *)
Theorem links_share_the_connection st q q' kw kw' :
  _connection_sharing (self st) = true →
  repeats_keyword (bound_parameters ++ handler_keywords) kw = false →
  repeats_keyword (bound_parameters ++ handler_keywords) kw' = false →
  ServiceBusSender_init (constructors st)
    (handler_args (self (snd (__enter__ st))) q kw) = None →
  ServiceBusReceiver_init (constructors st)
    (handler_args (self (snd (__enter__ st))) q' kw') = None →
  ∃ st' a b,
    open_links q q' kw kw' st
      = (Return (S (length (heap st)), S (S (length (heap st)))), st')
    ∧ _connection (self st') = Some (length (heap st))
    ∧ heap st' !! length (heap st) = Some (UamqpConnection (connection_of (self st)))
    ∧ heap st' !! S (length (heap st)) = Some (ServiceBusSender a)
    ∧ arg_connection a = Some (length (heap st))
    ∧ heap st' !! S (S (length (heap st))) = Some (ServiceBusReceiver b)
    ∧ arg_connection b = Some (length (heap st)).
Proof.
  intros Hflag Hkw Hkw' Hsender Hreceiver.
  destruct (enter_with_sharing st Hflag) as (c' & Henter & Hconn & _).
  rewrite Henter in Hsender, Hreceiver. simpl in Hsender, Hreceiver.
  unfold open_links, mbind, M_bind. rewrite Henter.
  rewrite get_queue_sender_eq, Hkw. simpl. rewrite Hsender.
  rewrite get_queue_receiver_eq, Hkw'. simpl. rewrite Hreceiver.
  unfold mret, M_ret.
  set (h1 := heap st ++ [UamqpConnection (connection_of (self st))]).
  assert (length h1 = S (length (heap st))) as Hlen1
    by (unfold h1; rewrite length_app; simpl; lia).
  set (h2 := h1 ++ [ServiceBusSender (handler_args c' q kw)]).
  assert (length h2 = S (S (length (heap st)))) as Hlen2
    by (unfold h2; rewrite length_app; simpl; lia).
  rewrite Hlen1, Hlen2.
  eexists _, _, _. split; [done|]. simpl. split; [done|].
  split; [|split; [|split; [|split]]].
  - do 2 apply lookup_app_l_Some. apply lookup_snoc_new.
  - apply lookup_app_l_Some. rewrite <- Hlen1. apply lookup_snoc_new.
  - done.
  - rewrite <- Hlen2. apply lookup_snoc_new.
  - done.
Qed.

Lemma links_share_the_connection_witness :
  ∃ st' a b,
    open_links "q1" "q2" ∅ {[ "prefetch" := VInt 10 ]}
      {| self := enable_sharing (__init__ "ns" (TokenCredential "t") ∅); heap := [];
         constructors := always_constructs |}
      = (Return (1, 2), st')
    ∧ _connection (self st') = Some 0
    ∧ heap st' !! 0
      = Some (UamqpConnection
                (connection_of (enable_sharing (__init__ "ns" (TokenCredential "t") ∅))))
    ∧ heap st' !! 1 = Some (ServiceBusSender a)
    ∧ arg_connection a = Some 0
    ∧ heap st' !! 2 = Some (ServiceBusReceiver b)
    ∧ arg_connection b = Some 0.
Proof.
  refine (links_share_the_connection
            {| self := enable_sharing (__init__ "ns" (TokenCredential "t") ∅);
               heap := []; constructors := always_constructs |}
            "q1" "q2" ∅ {[ "prefetch" := VInt 10 ]} _ _ _ _ _); reflexivity.
Defined.

(** X10.  With sharing on, entering the client a second time makes a
    second connection and stores it over the first; a [close()] after
    that destroys the second one only, the first is left as created. *)
Theorem reentering_replaces_connection st :
  _connection_sharing (self st) = true →
  ∃ st' first second,
    (_ ← __enter__; _ ← __enter__; close) st = (Return VNone, st')
    ∧ _connection (self st') = Some (S (length (heap st)))
    ∧ heap st' !! length (heap st) = Some (UamqpConnection first)
    ∧ destroy_calls first = 0
    ∧ heap st' !! S (length (heap st)) = Some (UamqpConnection second)
    ∧ destroy_calls second = 1.
Proof.
  intros Hflag.
  destruct (enter_with_sharing st Hflag) as (c1 & Henter1 & Hconn1 & Hflag1 & _).
  unfold mbind, M_bind. rewrite Henter1.
  destruct (enter_with_sharing
              {| self := c1;
                 heap := heap st ++ [UamqpConnection (connection_of (self st))];
                 constructors := constructors st |} Hflag1)
    as (c2 & Henter2 & Hconn2 & Hflag2 & _).
  rewrite Henter2. simpl in *.
  set (h1 := heap st ++ [UamqpConnection (connection_of (self st))]) in *.
  assert (length h1 = S (length (heap st))) as Hlen1
    by (unfold h1; rewrite length_app; simpl; lia).
  rewrite Hlen1 in Hconn2.
  erewrite close_with_connection; [|done|done|].
  - eexists _, (connection_of (self st)), (destroyed 1 (connection_of c1)).
    split; [done|]. simpl. split; [done|].
    split; [|split; [done|split; [|done]]].
    + rewrite list_lookup_insert_ne by lia.
      apply lookup_app_l_Some, lookup_snoc_new.
    + apply list_lookup_insert_eq. rewrite length_app. simpl. lia.
  - simpl. rewrite <- Hlen1. apply lookup_snoc_new.
Qed.

Lemma reentering_replaces_connection_witness :
  ∃ st' first second,
    (_ ← __enter__; _ ← __enter__; close)
      {| self := enable_sharing (__init__ "ns" (TokenCredential "t") ∅); heap := [];
         constructors := always_constructs |}
      = (Return VNone, st')
    ∧ _connection (self st') = Some 1
    ∧ heap st' !! 0 = Some (UamqpConnection first)
    ∧ destroy_calls first = 0
    ∧ heap st' !! 1 = Some (UamqpConnection second)
    ∧ destroy_calls second = 1.
Proof.
  refine (reentering_replaces_connection
            {| self := enable_sharing (__init__ "ns" (TokenCredential "t") ∅);
               heap := []; constructors := always_constructs |} _).
  reflexivity.
Defined.

(** ** The [with] block, continued *)

(** X11.  A [with] block on the client never swallows an exception: it
    never ends normally after its body raised, and the body's exception
    is the one the caller gets whenever [close()] itself returns. *)
Theorem with_block_never_suppresses {A} (body : M A) st :
  fst (with_client body st) ≠ Return None
  ∧ (∀ e st2, body (snd (__enter__ st)) = (Raise e, st2) →
       ∃ e', fst (with_client body st) = Raise e'
             ∧ (fst (close st2) = Return VNone → e' = e)).
Proof.
  unfold with_client.
  destruct (enter_never_raises st) as [st1 Henter]. rewrite Henter. simpl.
  split.
  - destruct (body st1) as [[a|e] st2]; rewrite exit_is_close;
      destruct (close st2) as [[v|e'] st3] eqn:Hclose; simpl; try done.
    by rewrite (close_returns_None _ _ _ Hclose).
  - intros e st2 ->. rewrite exit_is_close.
    destruct (close st2) as [[v|e'] st3] eqn:Hclose; simpl.
    + rewrite (close_returns_None _ _ _ Hclose). simpl. by exists e.
    + by exists e'.
Qed.

Lemma with_block_never_suppresses_witness :
  ∃ e', fst (with_client (raise (A:=unit) (UserError "boom"))
               {| self := __init__ "ns" (TokenCredential "t") ∅; heap := [];
                  constructors := always_constructs |})
        = Raise e'
        ∧ (fst (close {| self := __init__ "ns" (TokenCredential "t") ∅; heap := [];
                         constructors := always_constructs |})
             = Return VNone → e' = UserError "boom").
Proof.
  refine (proj2 (with_block_never_suppresses (raise (A:=unit) (UserError "boom"))
                   {| self := __init__ "ns" (TokenCredential "t") ∅; heap := [];
                      constructors := always_constructs |})
            (UserError "boom")
            {| self := __init__ "ns" (TokenCredential "t") ∅; heap := [];
               constructors := always_constructs |} _).
  reflexivity.
Defined.

(** X12.  While sharing is off, before the body and after it, a [with]
    block adds nothing to its body: the result and the final state are
    the body's own. *)
Theorem with_block_without_sharing {A} (body : M A) st r st2 :
  _connection_sharing (self st) = false →
  body st = (r, st2) →
  _connection_sharing (self st2) = false →
  with_client body st =
    (match r with Return a => Return (Some a) | Raise e => Raise e end, st2).
Proof.
  intros Hflag Hbody Hflag2. unfold with_client.
  assert (__enter__ st = (Return tt, st)) as -> by (run_M; by rewrite Hflag).
  rewrite Hbody.
  destruct r as [a|e]; by rewrite exit_is_close, close_without_sharing.
Qed.

Lemma with_block_without_sharing_witness :
  with_client (get_queue_sender "q1" ∅)
    {| self := __init__ "ns" (TokenCredential "t") ∅; heap := [];
       constructors := always_constructs |}
  = (Return (Some 0),
     {| self := __init__ "ns" (TokenCredential "t") ∅;
        heap := [ServiceBusSender
                   (handler_args (__init__ "ns" (TokenCredential "t") ∅) "q1" ∅)];
        constructors := always_constructs |}).
Proof.
  refine (with_block_without_sharing (get_queue_sender "q1" ∅)
            {| self := __init__ "ns" (TokenCredential "t") ∅; heap := [];
               constructors := always_constructs |}
            (Return 0) _ _ _ _); reflexivity.
Defined.
